(** * Luminance and emissive-intensity compensation (src/lib/three/luminance.ts)

    A shallow embedding of the five exported functions of [luminance.ts]
    ([hexToRgb], [calculateLuminance], [calculateEmissiveIntensity],
    [calculateArtisticIntensity], [getColorLuminance]) and of the JavaScript
    built-ins they call, followed by the properties of the specification.

    Conventions of the embedding.
    - Numbers.  The module is embedded twice.  In the first embedding a
      [number] is an exact rational ([Q]) and "equal numbers" is [==]
      ([Qeq]); it carries the properties in which rounding plays no part:
      which inputs are accepted, what is thrown and written, which branch is
      taken, signs and bounds.  In the second, [Binary64], a [number] is an
      IEEE 754 double (the primitive [float]), as in JavaScript; it carries
      the properties that depend on the arithmetic of doubles.
    - A JavaScript string is a [string] of 8-bit characters.  All characters
      the code looks at ('#', the hexadecimal digits) are ASCII; any other
      character only ever makes the pattern test fail.
    - A function that may [throw] or write to the console is a computation
      in the monad [JS]: it takes the console (the warnings written so far,
      oldest first) and gives a completion and the console afterwards. *)

From Stdlib Require Import Floats Uint63.
From Stdlib Require Import ZArith QArith Qabs Lqa Lia.
From Stdlib Require Import Bool List String Ascii.
Import ListNotations.

#[local] Set Warnings "-inexact-float".

Local Open Scope string_scope.
Local Open Scope Q_scope.

(** ** Completions, the console and the monad of effects *)

(** [new Error(message)]. *)
Record Error : Type := mkError { message : string }.

Inductive completion (A : Type) : Type :=
| Normal (value : A)
| Throw (e : Error).

Arguments Normal {A} value.
Arguments Throw {A} e.

Definition Console : Type := list string.

Definition JS (A : Type) : Type := Console -> completion A * Console.

Definition ret {A} (a : A) : JS A := fun co => (Normal a, co).

Definition throw {A} (e : Error) : JS A := fun co => (Throw e, co).

Definition bind {A B} (m : JS A) (k : A -> JS B) : JS B :=
  fun co =>
    match m co with
    | (Normal a, co') => k a co'
    | (Throw e, co') => (Throw e, co')
    end.

Notation "x <- m ;; k" := (bind m (fun x => k))
  (at level 61, m at next level, right associativity).
Notation "m ;;; k" := (bind m (fun _ => k))
  (at level 61, right associativity).

(** [console.warn(msg)]: appends one line to the console. *)
Definition console_warn (msg : string) : JS unit :=
  fun co => (Normal tt, (co ++ [msg])%list).

(** A parameter with a default value: [undefined] (here [None]) takes it. *)
Definition default {A} (d : A) (arg : option A) : A :=
  match arg with
  | Some a => a
  | None => d
  end.

(** ** The JavaScript built-ins used by the module *)

Module Builtin.

(** [String.prototype.replace] with a string pattern: the first occurrence
    of [pattern], if any, is replaced.  (The replacement is the empty string
    at the only call site, so no [$] pattern occurs in it.) *)
Fixpoint replace (pattern replacement s : string) : string :=
  if prefix pattern s then
    replacement ++ substring (length pattern) (length s - length pattern) s
  else
    match s with
    | EmptyString => EmptyString
    | String c s' => String c (replace pattern replacement s')
    end.

(** [String.prototype.substring(start, end)]: both indices are clamped to
    the length and swapped when [start > end]. *)
Definition substring (s : string) (start end_ : nat) : string :=
  let len := length s in
  let a := Nat.min start len in
  let b := Nat.min end_ len in
  String.substring (Nat.min a b) (Nat.max a b - Nat.min a b) s.

(** The value of a character as a digit: [0-9], [A-Z] and [a-z] count from
    0 to 35. *)
Definition digitValue (c : ascii) : option Z :=
  let n := Z.of_N (N_of_ascii c) in
  if (48 <=? n)%Z && (n <=? 57)%Z then Some (n - 48)%Z
  else if (65 <=? n)%Z && (n <=? 90)%Z then Some (n - 55)%Z
  else if (97 <=? n)%Z && (n <=? 122)%Z then Some (n - 87)%Z
  else None.

(** The digits of [parseInt(s, radix)]: the longest prefix of [s] made of
    digits below [radix], read in that base. *)
Fixpoint parseDigits (radix acc : Z) (s : string) : Z :=
  match s with
  | EmptyString => acc
  | String c s' =>
      match digitValue c with
      | Some d => if (d <? radix)%Z then parseDigits radix (radix * acc + d) s' else acc
      | None => acc
      end
  end.

(** [parseInt(s, radix)] on a string that starts with a digit of the radix.
    [hexToRgb] calls it only on two-character strings that the pattern test
    has found to be hexadecimal digits ([hexToRgb_channels_are_digits]
    below); white space, a sign or a [0x] prefix in front, and the NaN answer
    for a string without any digit, are therefore not represented. *)
Definition parseInt (s : string) (radix : Z) : Z := parseDigits radix 0 s.

(** The character class [[0-9A-Fa-f]]. *)
Definition isHexDigit (c : ascii) : bool :=
  let n := N_of_ascii c in
  ((48 <=? n) && (n <=? 57) || (65 <=? n) && (n <=? 70) || (97 <=? n) && (n <=? 102))%N.

(** [cls{n}$] from the current position: exactly [n] characters of the
    class, then the end of the input. *)
Fixpoint matchRepeat (cls : ascii -> bool) (n : nat) (s : string) : bool :=
  match n, s with
  | O, EmptyString => true
  | S n', String c s' => cls c && matchRepeat cls n' s'
  | _, _ => false
  end.

(** [/^[0-9A-Fa-f]{6}$/.test(s)].  Without the [m] flag [^] and [$] only
    match at the two ends of the input. *)
Definition HEX6_test (s : string) : bool := matchRepeat isHexDigit 6 s.

End Builtin.

(** ** The module luminance.ts *)

Definition number : Type := Q.

Record Coefficients : Type := { red : number; green : number; blue : number }.

Definition REC709_COEFFICIENTS : Coefficients :=
  {| red := 0.2126; green := 0.7152; blue := 0.0722 |}.

Record RGB : Type := { r : number; g : number; b : number }.

Definition invalidHexMessage (hex : string) : string :=
  "Invalid hex color: " ++ hex ++ ". Expected format: #RRGGBB".

Definition hexToRgb (hex : string) : JS RGB :=
  let cleanHex := Builtin.replace "#" "" hex in
  if negb (Builtin.HEX6_test cleanHex) then
    throw (mkError (invalidHexMessage hex))
  else
    let r := inject_Z (Builtin.parseInt (Builtin.substring cleanHex 0 2) 16) / 255 in
    let g := inject_Z (Builtin.parseInt (Builtin.substring cleanHex 2 4) 16) / 255 in
    let b := inject_Z (Builtin.parseInt (Builtin.substring cleanHex 4 6) 16) / 255 in
    ret {| r := r; g := g; b := b |}.

Definition calculateLuminance (rgb : RGB) : number :=
  red REC709_COEFFICIENTS * r rgb +
  green REC709_COEFFICIENTS * g rgb +
  blue REC709_COEFFICIENTS * b rgb.

Definition zeroLuminanceWarning (hexColor : string) : string :=
  "Color " ++ hexColor ++ " has zero luminance and cannot bloom. Returning intensity 1.0.".

Definition calculateEmissiveIntensity
    (hexColor : string) (targetLuminance : option number) : JS number :=
  let targetLuminance := default 1.05 targetLuminance in
  rgb <- hexToRgb hexColor ;;
  let baseLuminance := calculateLuminance rgb in
  if Qeq_bool baseLuminance 0 then
    console_warn (zeroLuminanceWarning hexColor) ;;;
    ret 1.0
  else
    let requiredIntensity := targetLuminance / baseLuminance in
    ret requiredIntensity.

Definition calculateArtisticIntensity
    (hexColor : string) (targetLuminance compensationFactor : option number)
    : JS number :=
  let targetLuminance := default 2.0 targetLuminance in
  let compensationFactor := default 0.5 compensationFactor in
  rgb <- hexToRgb hexColor ;;
  let baseLuminance := calculateLuminance rgb in
  if Qeq_bool baseLuminance 0 then
    console_warn (zeroLuminanceWarning hexColor) ;;;
    ret 1.0
  else
    let fullCompensation := targetLuminance / baseLuminance in
    let partialCompensation := 1.0 + (fullCompensation - 1.0) * compensationFactor in
    ret partialCompensation.

Definition getColorLuminance (hexColor : string) : JS number :=
  rgb <- hexToRgb hexColor ;;
  ret (calculateLuminance rgb).

(** ** What the specification calls a hex color *)

(** One of the 22 hexadecimal digits, in either letter case. *)
Definition HexDigit (c : ascii) : Prop :=
  In c (list_ascii_of_string "0123456789ABCDEFabcdef").

(** Exactly six hexadecimal digits. *)
Definition SixHexDigits (s : string) : Prop :=
  length s = 6%nat /\ Forall HexDigit (list_ascii_of_string s).

(** Stripping an optional leading '#'. *)
Definition stripLeadingHash (s : string) : string :=
  match s with
  | String "#" s' => s'
  | _ => s
  end.

(** The value of a hexadecimal digit, read off a table. *)
Definition hexDigitTable : list (ascii * Z) :=
  [("0", 0); ("1", 1); ("2", 2); ("3", 3); ("4", 4); ("5", 5); ("6", 6);
   ("7", 7); ("8", 8); ("9", 9);
   ("A", 10); ("B", 11); ("C", 12); ("D", 13); ("E", 14); ("F", 15);
   ("a", 10); ("b", 11); ("c", 12); ("d", 13); ("e", 14); ("f", 15)]%char%Z.

Fixpoint lookupDigit (c : ascii) (t : list (ascii * Z)) : Z :=
  match t with
  | [] => 0%Z
  | (c', v) :: t' => if Ascii.eqb c c' then v else lookupDigit c t'
  end.

Definition hexValue (c : ascii) : Z := lookupDigit c hexDigitTable.

(** The two-digit channel of [s] that starts at position [i], as a base-16
    integer over 255. *)
Definition channel (s : string) (i : nat) : Q :=
  match get i s, get (S i) s with
  | Some hi, Some lo => inject_Z (16 * hexValue hi + hexValue lo) / 255
  | _, _ => 0
  end.

Definition unit_interval (x : Q) : Prop := 0 <= x /\ x <= 1.

(** Each component of the triple is in [0,1]. *)
Definition normalized (rgb : RGB) : Prop :=
  unit_interval (r rgb) /\ unit_interval (g rgb) /\ unit_interval (b rgb).

(** The triple read off a string of six hexadecimal digits. *)
Definition decoded (cleanHex : string) : RGB :=
  {| r := channel cleanHex 0; g := channel cleanHex 2; b := channel cleanHex 4 |}.


(** No '#' anywhere in the string. *)
Definition hashFree (s : string) : bool :=
  forallb (fun c => negb (Ascii.eqb c "#")) (list_ascii_of_string s).

(** Letter case: [A-Z] to [a-z], every other character to itself. *)
Definition asciiLower (c : ascii) : ascii :=
  let n := N_of_ascii c in
  if ((65 <=? n) && (n <=? 90))%N then ascii_of_N (n + 32) else c.

Fixpoint lowerCase (s : string) : string :=
  match s with
  | EmptyString => EmptyString
  | String c s' => String (asciiLower c) (lowerCase s')
  end.

(** The lower-case hexadecimal digit of a value from 0 to 15. *)
Definition lowerHexDigit (v : Z) : ascii :=
  nth (Z.to_nat v) (list_ascii_of_string "0123456789abcdef") "0"%char.


(** ** The module luminance.ts in double precision

    The same five functions with [number] read as an IEEE 754 binary64
    value, Rocq's primitive [float]: the arithmetic operators round to
    nearest-even, a decimal literal is the nearest double, and [===] on
    numbers is the IEEE equality [=?] (0 equals -0, NaN equals nothing).
    Strings, errors and the console are as above. *)

Module Binary64.

Definition number : Type := float.

(** The double of an integer from 0 to 2^53, as [parseInt] returns it. *)
Definition ofInteger (z : Z) : number := PrimFloat.of_uint63 (Uint63.of_Z z).

Record Coefficients : Type := { red : number; green : number; blue : number }.

Definition REC709_COEFFICIENTS : Coefficients :=
  {| red := 0.2126%float; green := 0.7152%float; blue := 0.0722%float |}.

Record RGB : Type := { r : number; g : number; b : number }.

Definition hexToRgb (hex : string) : JS RGB :=
  let cleanHex := Builtin.replace "#" "" hex in
  if negb (Builtin.HEX6_test cleanHex) then
    throw (mkError (invalidHexMessage hex))
  else
    let r := (ofInteger (Builtin.parseInt (Builtin.substring cleanHex 0 2) 16) / 255)%float in
    let g := (ofInteger (Builtin.parseInt (Builtin.substring cleanHex 2 4) 16) / 255)%float in
    let b := (ofInteger (Builtin.parseInt (Builtin.substring cleanHex 4 6) 16) / 255)%float in
    ret {| r := r; g := g; b := b |}.

Definition calculateLuminance (rgb : RGB) : number :=
  (red REC709_COEFFICIENTS * r rgb +
   green REC709_COEFFICIENTS * g rgb +
   blue REC709_COEFFICIENTS * b rgb)%float.

Definition calculateEmissiveIntensity
    (hexColor : string) (targetLuminance : option number) : JS number :=
  let targetLuminance := default 1.05%float targetLuminance in
  rgb <- hexToRgb hexColor ;;
  let baseLuminance := calculateLuminance rgb in
  if (baseLuminance =? 0)%float then
    console_warn (zeroLuminanceWarning hexColor) ;;;
    ret 1.0%float
  else
    let requiredIntensity := (targetLuminance / baseLuminance)%float in
    ret requiredIntensity.

Definition calculateArtisticIntensity
    (hexColor : string) (targetLuminance compensationFactor : option number)
    : JS number :=
  let targetLuminance := default 2.0%float targetLuminance in
  let compensationFactor := default 0.5%float compensationFactor in
  rgb <- hexToRgb hexColor ;;
  let baseLuminance := calculateLuminance rgb in
  if (baseLuminance =? 0)%float then
    console_warn (zeroLuminanceWarning hexColor) ;;;
    ret 1.0%float
  else
    let fullCompensation := (targetLuminance / baseLuminance)%float in
    let partialCompensation :=
      (1.0 + (fullCompensation - 1.0) * compensationFactor)%float in
    ret partialCompensation.

Definition getColorLuminance (hexColor : string) : JS number :=
  rgb <- hexToRgb hexColor ;;
  ret (calculateLuminance rgb).

(** An 8-bit channel value over 255, as [hexToRgb] computes a component. *)
Definition channel8 (k : Z) : number := (ofInteger k / 255)%float.

Definition rgb8 (kr kg kb : Z) : RGB :=
  {| r := channel8 kr; g := channel8 kg; b := channel8 kb |}.


(** The two-digit channel of [s] at position [i], as an integer. *)
Definition byteAt (s : string) (i : nat) : Z :=
  match get i s, get (S i) s with
  | Some hi, Some lo => (16 * hexValue hi + hexValue lo)%Z
  | _, _ => 0%Z
  end.

(** The triple read off a string of six hexadecimal digits. *)
Definition decoded (cleanHex : string) : RGB :=
  rgb8 (byteAt cleanHex 0) (byteAt cleanHex 2) (byteAt cleanHex 4).





(** *** Tables for the checks that run over all 256^3 colors

    The luminance of [rgb8 kr kg kb] is the sum, in this order, of one entry
    of each table below: the 256 channel values, each times its weight. *)

Definition levels : list Z := map Z.of_nat (seq 0 256).

Definition weighted (c : number) : list (Z * number) :=
  map (fun k => (k, (c * channel8 k)%float)) levels.

Definition redTable : list (Z * number) :=
  Eval vm_compute in weighted (red REC709_COEFFICIENTS).

Definition greenTable : list (Z * number) :=
  Eval vm_compute in weighted (green REC709_COEFFICIENTS).

Definition blueTable : list (Z * number) :=
  Eval vm_compute in weighted (blue REC709_COEFFICIENTS).

(** The luminance [l] of the channels [kr], [kg], [kb] is in [0,1], and is 0
    exactly when the three channels are 0. *)
Definition luminanceOk (kr kg kb : Z) (l : number) : bool :=
  (0 <=? l)%float && (l <=? 1)%float &&
  Bool.eqb (l =? 0)%float ((kr =? 0)%Z && (kg =? 0)%Z && (kb =? 0)%Z).

(** Each element is below the next. *)
Fixpoint increasing (l : list number) : bool :=
  match l with
  | x :: (y :: _) as t => (x <? y)%float && increasing t
  | _ => true
  end.


End Binary64.

(** ** Characters and strings *)

(** Case analysis on the 256 characters. *)
Ltac each_character c := destruct c as [[] [] [] [] [] [] [] []].

Lemma isHexDigit_HexDigit (c : ascii) :
  Builtin.isHexDigit c = true <-> HexDigit c.
Proof.
  unfold HexDigit.
  each_character c; vm_compute;
    (split; [ intros H; first [ discriminate H | tauto ]
            | intros H; first [ reflexivity
                              | repeat (destruct H as [H | H]; [ discriminate H | ]);
                                contradiction ] ]).
Qed.

Lemma digitValue_hex (c : ascii) :
  Builtin.isHexDigit c = true ->
  Builtin.digitValue c = Some (hexValue c) /\ (0 <= hexValue c < 16)%Z.
Proof.
  each_character c; vm_compute; intros H;
    first [ discriminate H | split; [ reflexivity | split; [ discriminate | reflexivity ] ] ].
Qed.

Lemma hash_not_hex : Builtin.isHexDigit "#" = false.
Proof. reflexivity. Qed.

Lemma substring_whole (s : string) : String.substring 0 (length s) s = s.
Proof. induction s as [| c s IH]; simpl; [ reflexivity | now rewrite IH ]. Qed.

(** A leading '#' is the first occurrence: it is the one removed. *)
Lemma replace_leading_hash (s : string) :
  Builtin.replace "#" "" (String "#" s) = s.
Proof.
  cbn [Builtin.replace prefix length Nat.sub append].
  destruct (ascii_dec "#" "#") as [_ | ne]; [ | now elim ne ].
  destruct s as [| c s]; [ reflexivity | ].
  cbn [prefix String.substring length Nat.sub].
  now rewrite substring_whole.
Qed.

(** A string without '#' is left as it is. *)
Lemma replace_no_hash (s : string) :
  forallb (fun c => negb (Ascii.eqb c "#")) (list_ascii_of_string s) = true ->
  Builtin.replace "#" "" s = s.
Proof.
  induction s as [| c s IH]; [ reflexivity | ].
  cbn [list_ascii_of_string forallb]. intros H.
  apply andb_true_iff in H as [Hc Hs].
  cbn [Builtin.replace prefix].
  destruct (ascii_dec "#" c) as [e | _].
  - subst c. discriminate Hc.
  - now rewrite (IH Hs).
Qed.

(** Somewhere inside, the first '#' is removed all the same. *)
Lemma replace_inner_hash (c : ascii) (s : string) :
  c <> "#"%char ->
  Builtin.replace "#" "" (String c s) = String c (Builtin.replace "#" "" s).
Proof.
  intros ne. cbn [Builtin.replace prefix].
  destruct (ascii_dec "#" c) as [e | _]; [ now elim ne | reflexivity ].
Qed.

Lemma matchRepeat_length cls (n : nat) (s : string) :
  Builtin.matchRepeat cls n s = true -> length s = n.
Proof.
  revert s; induction n as [| n IH]; intros [| c s]; simpl; try discriminate.
  - reflexivity.
  - intros H. apply andb_true_iff in H as [_ H]. now rewrite (IH s H).
Qed.

Lemma matchRepeat_forallb cls (n : nat) (s : string) :
  Builtin.matchRepeat cls n s = true <->
  length s = n /\ forallb cls (list_ascii_of_string s) = true.
Proof.
  revert s; induction n as [| n IH]; intros [| c s]; simpl.
  - tauto.
  - split; [ discriminate | intros [H _]; discriminate H ].
  - split; [ discriminate | intros [H _]; discriminate H ].
  - rewrite andb_true_iff, IH, andb_true_iff. split.
    + intros [Hc [Hl Hs]]. now rewrite Hl.
    + intros [Hl [Hc Hs]]. injection Hl as Hl. tauto.
Qed.

(** The pattern test accepts exactly the strings of six hexadecimal digits. *)
Lemma HEX6_test_spec (s : string) :
  Builtin.HEX6_test s = true <-> SixHexDigits s.
Proof.
  unfold Builtin.HEX6_test, SixHexDigits.
  rewrite matchRepeat_forallb, forallb_forall, Forall_forall.
  split; intros [Hl H]; (split; [ exact Hl | ]); intros c Hc.
  - apply isHexDigit_HexDigit, H, Hc.
  - apply isHexDigit_HexDigit, H, Hc.
Qed.

Lemma six_characters (s : string) :
  length s = 6%nat ->
  exists c1 c2 c3 c4 c5 c6,
    s = String c1 (String c2 (String c3 (String c4 (String c5 (String c6 ""))))).
Proof.
  intros H.
  do 6 (destruct s as [| ? s]; [ discriminate H | ]).
  destruct s; [ | discriminate H ].
  now do 6 eexists.
Qed.

Lemma parseInt_two_hex (c1 c2 : ascii) :
  Builtin.isHexDigit c1 = true -> Builtin.isHexDigit c2 = true ->
  Builtin.parseInt (String c1 (String c2 "")) 16 = (16 * hexValue c1 + hexValue c2)%Z
  /\ (0 <= 16 * hexValue c1 + hexValue c2 <= 255)%Z.
Proof.
  intros H1 H2.
  destruct (digitValue_hex c1 H1) as [E1 R1], (digitValue_hex c2 H2) as [E2 R2].
  unfold Builtin.parseInt. cbn [Builtin.parseDigits]. rewrite E1.
  destruct (Z.ltb_spec (hexValue c1) 16) as [_ | F]; [ | lia ].
  rewrite E2.
  destruct (Z.ltb_spec (hexValue c2) 16) as [_ | F]; [ | lia ].
  split; lia.
Qed.

(** ** The color decoder *)

Lemma six_hex_characters (s : string) :
  Builtin.HEX6_test s = true ->
  exists c1 c2 c3 c4 c5 c6,
    s = String c1 (String c2 (String c3 (String c4 (String c5 (String c6 "")))))
    /\ Builtin.isHexDigit c1 = true /\ Builtin.isHexDigit c2 = true
    /\ Builtin.isHexDigit c3 = true /\ Builtin.isHexDigit c4 = true
    /\ Builtin.isHexDigit c5 = true /\ Builtin.isHexDigit c6 = true.
Proof.
  intros H. unfold Builtin.HEX6_test in H.
  destruct (six_characters s (matchRepeat_length _ _ _ H))
    as (c1 & c2 & c3 & c4 & c5 & c6 & ->).
  exists c1, c2, c3, c4, c5, c6. split; [ reflexivity | ].
  cbn [Builtin.matchRepeat] in H.
  repeat (apply andb_true_iff in H as [? H]). tauto.
Qed.

(** The three strings handed to [parseInt] are pairs of hexadecimal digits,
    so its digit loop reads both characters. *)
Lemma hexToRgb_channels_are_digits (cleanHex : string) :
  Builtin.HEX6_test cleanHex = true ->
  forall i, In i [0; 2; 4]%nat ->
  exists hi lo,
    Builtin.substring cleanHex i (i + 2) = String hi (String lo "")
    /\ Builtin.isHexDigit hi = true /\ Builtin.isHexDigit lo = true.
Proof.
  intros H i Hi.
  destruct (six_hex_characters _ H)
    as (c1 & c2 & c3 & c4 & c5 & c6 & -> & H1 & H2 & H3 & H4 & H5 & H6).
  destruct Hi as [<- | [<- | [<- | []]]]; do 2 eexists;
    (split; [ reflexivity | split; assumption ]).
Qed.

(** [hexToRgb] in one equation: the pattern test on the cleaned string
    decides between the error and the three channels. *)
Lemma hexToRgb_eq (hex : string) (co : Console) :
  hexToRgb hex co =
  let cleanHex := Builtin.replace "#" "" hex in
  if Builtin.HEX6_test cleanHex
  then (Normal (decoded cleanHex), co)
  else (Throw (mkError (invalidHexMessage hex)), co).
Proof.
  unfold hexToRgb. cbv zeta.
  destruct (Builtin.HEX6_test (Builtin.replace "#" "" hex)) eqn:T;
    cbn [negb]; [ | reflexivity ].
  destruct (six_hex_characters _ T)
    as (c1 & c2 & c3 & c4 & c5 & c6 & -> & H1 & H2 & H3 & H4 & H5 & H6).
  unfold ret, decoded, channel.
  cbn [Builtin.substring length Nat.min Nat.max Nat.sub String.substring get].
  destruct (parseInt_two_hex c1 c2 H1 H2) as [-> _].
  destruct (parseInt_two_hex c3 c4 H3 H4) as [-> _].
  destruct (parseInt_two_hex c5 c6 H5 H6) as [-> _].
  reflexivity.
Qed.

Lemma channel_range (z : Z) :
  (0 <= z <= 255)%Z -> unit_interval (inject_Z z / 255).
Proof.
  intros [lo hi]. unfold unit_interval.
  assert (0 <= inject_Z z) by (rewrite Zle_Qle in lo; exact lo).
  assert (inject_Z z <= 255) by (rewrite Zle_Qle in hi; exact hi).
  split.
  - apply Qle_shift_div_l; lra.
  - apply Qle_shift_div_r; lra.
Qed.

Lemma decoded_normalized (cleanHex : string) :
  Builtin.HEX6_test cleanHex = true -> normalized (decoded cleanHex).
Proof.
  intros T.
  destruct (six_hex_characters _ T)
    as (c1 & c2 & c3 & c4 & c5 & c6 & -> & H1 & H2 & H3 & H4 & H5 & H6).
  unfold normalized, decoded, channel; cbn [r g b get].
  repeat split; apply channel_range;
    first [ apply (parseInt_two_hex c1 c2 H1 H2)
          | apply (parseInt_two_hex c3 c4 H3 H4)
          | apply (parseInt_two_hex c5 c6 H5 H6) ].
Qed.

(** A call of [hexToRgb] never writes to the console. *)
Lemma hexToRgb_console (hex : string) (co co' : Console) (x : completion RGB) :
  hexToRgb hex co = (x, co') -> co' = co.
Proof.
  rewrite hexToRgb_eq. cbv zeta.
  destruct (Builtin.HEX6_test _); intros E; now inversion E.
Qed.

(** What it returns is a normalized triple. *)
Lemma hexToRgb_normalized (hex : string) (co co' : Console) (rgb : RGB) :
  hexToRgb hex co = (Normal rgb, co') -> normalized rgb.
Proof.
  rewrite hexToRgb_eq. cbv zeta.
  destruct (Builtin.HEX6_test _) eqn:T; intros E; inversion E; subst.
  now apply decoded_normalized.
Qed.

(** It throws exactly when the string left by [replace] is not six
    hexadecimal digits, and the error then names the input. *)
Lemma hexToRgb_throws_iff (hex : string) (co : Console) :
  (exists e, hexToRgb hex co = (Throw e, co)) <->
  ~ SixHexDigits (Builtin.replace "#" "" hex).
Proof.
  rewrite hexToRgb_eq, <- HEX6_test_spec. cbv zeta.
  destruct (Builtin.HEX6_test _); split.
  - intros [e E]. discriminate E.
  - intros H. now elim H.
  - discriminate.
  - intros _. now eexists.
Qed.

Lemma hexToRgb_error_names_input (hex : string) (co co' : Console) (e : Error) :
  hexToRgb hex co = (Throw e, co') -> message e = invalidHexMessage hex.
Proof.
  rewrite hexToRgb_eq. cbv zeta.
  destruct (Builtin.HEX6_test _); intros E; inversion E; reflexivity.
Qed.

Lemma hex_digit_not_hash (c : ascii) :
  HexDigit c -> negb (Ascii.eqb c "#") = true.
Proof.
  intros H. apply isHexDigit_HexDigit in H.
  destruct (Ascii.eqb_spec c "#") as [-> | _]; [ discriminate H | reflexivity ].
Qed.

Lemma six_hex_no_hash (s : string) :
  SixHexDigits s ->
  forallb (fun c => negb (Ascii.eqb c "#")) (list_ascii_of_string s) = true.
Proof.
  intros [_ H]. apply forallb_forall. intros c Hc.
  rewrite Forall_forall in H. now apply hex_digit_not_hash, H.
Qed.

(** Six hexadecimal digits decode to their three channels, with or without
    a '#' in front. *)
Lemma hexToRgb_of_six_hex (s : string) (co : Console) :
  SixHexDigits s ->
  hexToRgb s co = (Normal (decoded s), co) /\
  hexToRgb (String "#" s) co = (Normal (decoded s), co) /\
  normalized (decoded s).
Proof.
  intros H. pose proof (proj2 (HEX6_test_spec s) H) as T.
  rewrite !hexToRgb_eq. cbv zeta.
  rewrite replace_leading_hash, (replace_no_hash s (six_hex_no_hash s H)), T.
  repeat split; try reflexivity; now apply decoded_normalized.
Qed.

Lemma stripLeadingHash_other (c : ascii) (s : string) :
  c <> "#"%char -> stripLeadingHash (String c s) = String c s.
Proof.
  intros ne. each_character c; try reflexivity. now elim ne.
Qed.

(** The accepted inputs include every string of the documented format. *)
Lemma hexToRgb_accepts_format (hex : string) (co : Console) :
  SixHexDigits (stripLeadingHash hex) ->
  exists rgb, hexToRgb hex co = (Normal rgb, co).
Proof.
  intros H. exists (decoded (stripLeadingHash hex)).
  destruct hex as [| c s].
  - apply (hexToRgb_of_six_hex _ co H).
  - destruct (Ascii.eqb_spec c "#") as [-> | ne].
    + apply (hexToRgb_of_six_hex s co H).
    + rewrite (stripLeadingHash_other c s ne) in *.
      apply (hexToRgb_of_six_hex _ co H).
Qed.

(** On an input with no '#' after the first character position, throwing
    is decided by the documented format. *)
Lemma hexToRgb_throws_format (hex : string) (co : Console) :
  forallb (fun c => negb (Ascii.eqb c "#"))
          (list_ascii_of_string (stripLeadingHash hex)) = true ->
  ((exists e, hexToRgb hex co = (Throw e, co)) <->
   ~ SixHexDigits (stripLeadingHash hex)).
Proof.
  intros N. rewrite hexToRgb_throws_iff.
  assert (E : Builtin.replace "#" "" hex = stripLeadingHash hex).
  { destruct hex as [| c s]; [ reflexivity | ].
    destruct (Ascii.eqb_spec c "#") as [-> | ne].
    - apply replace_leading_hash.
    - rewrite (stripLeadingHash_other c s ne) in *. now apply replace_no_hash. }
  now rewrite E.
Qed.

(** ** The intensity compensators, as equations on the decoder's result *)

Lemma calculateEmissiveIntensity_eq hexColor targetLuminance (co : Console) :
  calculateEmissiveIntensity hexColor targetLuminance co =
  match hexToRgb hexColor co with
  | (Normal rgb, co') =>
      if Qeq_bool (calculateLuminance rgb) 0
      then (Normal 1.0, (co' ++ [zeroLuminanceWarning hexColor])%list)
      else (Normal (default 1.05 targetLuminance / calculateLuminance rgb), co')
  | (Throw e, co') => (Throw e, co')
  end.
Proof.
  unfold calculateEmissiveIntensity, bind.
  destruct (hexToRgb hexColor co) as [[rgb | e] co']; [ | reflexivity ].
  destruct (Qeq_bool (calculateLuminance rgb) 0); reflexivity.
Qed.

Lemma calculateArtisticIntensity_eq hexColor targetLuminance compensationFactor
    (co : Console) :
  calculateArtisticIntensity hexColor targetLuminance compensationFactor co =
  match hexToRgb hexColor co with
  | (Normal rgb, co') =>
      if Qeq_bool (calculateLuminance rgb) 0
      then (Normal 1.0, (co' ++ [zeroLuminanceWarning hexColor])%list)
      else (Normal (1.0 + (default 2.0 targetLuminance / calculateLuminance rgb - 1.0)
                          * default 0.5 compensationFactor), co')
  | (Throw e, co') => (Throw e, co')
  end.
Proof.
  unfold calculateArtisticIntensity, bind.
  destruct (hexToRgb hexColor co) as [[rgb | e] co']; [ | reflexivity ].
  destruct (Qeq_bool (calculateLuminance rgb) 0); reflexivity.
Qed.

Lemma Qeq_bool_false (x y : Q) : ~ x == y -> Qeq_bool x y = false.
Proof.
  intros ne. destruct (Qeq_bool x y) eqn:E; [ | reflexivity ].
  now apply Qeq_bool_iff in E.
Qed.

(** ** The luminance evaluator *)

Lemma calculateLuminance_formula (rgb : RGB) :
  calculateLuminance rgb == (2126 # 10000) * r rgb + (7152 # 10000) * g rgb + (722 # 10000) * b rgb.
Proof. reflexivity. Qed.

Lemma calculateLuminance_nonneg (rgb : RGB) :
  normalized rgb -> 0 <= calculateLuminance rgb.
Proof.
  intros ([? ?] & [? ?] & [? ?]). rewrite calculateLuminance_formula. lra.
Qed.

Lemma calculateLuminance_zero (rgb : RGB) :
  normalized rgb ->
  (calculateLuminance rgb == 0 <-> r rgb == 0 /\ g rgb == 0 /\ b rgb == 0).
Proof.
  intros ([? ?] & [? ?] & [? ?]). rewrite calculateLuminance_formula.
  split; [ intros E; repeat split; lra | intros (? & ? & ?); lra ].
Qed.

(** ** The cases of the test suite, evaluated *)

Example hexToRgb_mixed_case :
  hexToRgb "#FfAa00" [] = (Normal {| r := 255 # 255; g := 170 # 255; b := 0 # 255 |}, []).
Proof. reflexivity. Qed.

Example hexToRgb_wrong_length :
  hexToRgb "#fff" [] =
  (Throw (mkError "Invalid hex color: #fff. Expected format: #RRGGBB"), []).
Proof. reflexivity. Qed.

Example hexToRgb_invalid_characters :
  hexToRgb "#ff00zz" [] =
  (Throw (mkError "Invalid hex color: #ff00zz. Expected format: #RRGGBB"), []).
Proof. reflexivity. Qed.

Example hexToRgb_empty :
  hexToRgb "" [] =
  (Throw (mkError "Invalid hex color: . Expected format: #RRGGBB"), []).
Proof. reflexivity. Qed.

Example getColorLuminance_magenta :
  exists v, getColorLuminance "#ff00ff" [] = (Normal v, []) /\ v == 0.2848.
Proof. eexists. split; reflexivity. Qed.

Example calculateArtisticIntensity_defaults :
  calculateArtisticIntensity "#ff00ff" None None [] =
  calculateArtisticIntensity "#ff00ff" (Some 2.0) (Some 0.5) [].
Proof. reflexivity. Qed.

Example calculateEmissiveIntensity_black :
  calculateEmissiveIntensity "#000000" (Some 1.05) [] =
  (Normal 1.0,
   ["Color #000000 has zero luminance and cannot bloom. Returning intensity 1.0."]).
Proof. reflexivity. Qed.

(** C8. On a string [s] of six hexadecimal digits, in any letter case,
    [hexToRgb] succeeds on [s] and on '#' followed by [s] with the same
    triple: the channels at positions 0, 2 and 4 (red, green, blue), each
    two digits read in base 16 and divided by 255, each in [0,1]. *)
Theorem hexToRgb_six_hex_digits (s : string) (co : Console) :
  SixHexDigits s ->
  exists rgb,
    hexToRgb s co = (Normal rgb, co) /\
    hexToRgb (String "#" s) co = (Normal rgb, co) /\
    r rgb = channel s 0 /\ g rgb = channel s 2 /\ b rgb = channel s 4 /\
    normalized rgb.
Proof.
  intros H. exists (decoded s).
  destruct (hexToRgb_of_six_hex s co H) as (E1 & E2 & N).
  repeat split; try assumption; apply N.
Qed.

Lemma hexToRgb_six_hex_digits_witness :
  exists rgb,
    hexToRgb "FfAa00" [] = (Normal rgb, []) /\
    hexToRgb "#FfAa00" [] = (Normal rgb, []) /\
    r rgb = channel "FfAa00" 0 /\ g rgb = channel "FfAa00" 2 /\
    b rgb = channel "FfAa00" 4 /\ normalized rgb.
Proof.
  apply (hexToRgb_six_hex_digits "FfAa00" []).
  split; [ reflexivity | ].
  cbn [list_ascii_of_string].
  repeat (apply Forall_cons; [ apply isHexDigit_HexDigit; reflexivity | ]).
  apply Forall_nil.
Defined.

(** C9. [getColorLuminance] is the composition of [hexToRgb] and
    [calculateLuminance]: the luminance of the decoded triple when
    [hexToRgb] returns, the very error of [hexToRgb] when it throws, and
    nothing written to the console. *)
Theorem getColorLuminance_composition (hexColor : string) (co : Console) :
  getColorLuminance hexColor co =
  match hexToRgb hexColor co with
  | (Normal rgb, co') => (Normal (calculateLuminance rgb), co')
  | (Throw e, co') => (Throw e, co')
  end
  /\ snd (getColorLuminance hexColor co) = co.
Proof.
  unfold getColorLuminance, bind, ret.
  destruct (hexToRgb hexColor co) as [[rgb | e] co'] eqn:E;
    (split; [ reflexivity | ]); cbn [snd]; now apply hexToRgb_console in E.
Qed.

(** C2. The input "ff#00ff" is not six hexadecimal digits once an optional
    leading '#' is stripped, yet [hexToRgb] does not throw on it: [replace]
    removes the first '#' wherever it stands, and the result is magenta. *)
Theorem hexToRgb_inner_hash_accepted :
  ~ SixHexDigits (stripLeadingHash "ff#00ff") /\
  forall co, exists rgb,
    hexToRgb "ff#00ff" co = (Normal rgb, co) /\
    r rgb == 1 /\ g rgb == 0 /\ b rgb == 1.
Proof.
  split.
  - intros [L _]. discriminate L.
  - intros co. rewrite hexToRgb_eq. eexists. split; [ reflexivity | ].
    repeat split.
Qed.

(** C3. For a color that [hexToRgb] accepts and whose base luminance is not
    0, [calculateEmissiveIntensity] returns the target luminance (1.05 when
    none is passed) divided by the base luminance, and writes nothing; for
    magenta and yellow at 1.05 that is 3.69 and 1.13, within 0.01. *)
Theorem calculateEmissiveIntensity_quotient :
  (forall hexColor targetLuminance co co' rgb,
     hexToRgb hexColor co = (Normal rgb, co') ->
     ~ calculateLuminance rgb == 0 ->
     calculateEmissiveIntensity hexColor targetLuminance co =
     (Normal (default 1.05 targetLuminance / calculateLuminance rgb), co)) /\
  (forall co, exists v,
     calculateEmissiveIntensity "#ff00ff" (Some 1.05) co = (Normal v, co) /\
     Qabs (v - 3.69) < 0.01) /\
  (forall co, exists v,
     calculateEmissiveIntensity "#ffff00" (Some 1.05) co = (Normal v, co) /\
     Qabs (v - 1.13) < 0.01).
Proof.
  split; [ | split ].
  - intros hexColor targetLuminance co co' rgb E NZ.
    rewrite calculateEmissiveIntensity_eq, E, (Qeq_bool_false _ _ NZ).
    now rewrite (hexToRgb_console _ _ _ _ E).
  - intros co. exists (1.05 / calculateLuminance (decoded "ff00ff")).
    rewrite calculateEmissiveIntensity_eq, hexToRgb_eq.
    split; reflexivity.
  - intros co. exists (1.05 / calculateLuminance (decoded "ffff00")).
    rewrite calculateEmissiveIntensity_eq, hexToRgb_eq.
    split; reflexivity.
Qed.

Lemma calculateEmissiveIntensity_quotient_witness :
  calculateEmissiveIntensity "#00ffff" (Some 2) [] =
  (Normal (2 / calculateLuminance (decoded "00ffff")), []).
Proof.
  apply (proj1 calculateEmissiveIntensity_quotient
               "#00ffff" (Some 2) [] [] (decoded "00ffff")).
  - reflexivity.
  - discriminate.
Defined.

(** C4. For a color that [hexToRgb] accepts and whose base luminance is 0
    (pure black), both intensity functions return normally, with the
    fallback 1.0, whatever target and factor are passed; each writes the one
    warning to the console. *)
Theorem zero_luminance_fallback
    (hexColor : string) (target target' factor : option number)
    (co co' : Console) (rgb : RGB) :
  hexToRgb hexColor co = (Normal rgb, co') ->
  calculateLuminance rgb == 0 ->
  calculateEmissiveIntensity hexColor target co =
  (Normal 1.0, (co ++ [zeroLuminanceWarning hexColor])%list) /\
  calculateArtisticIntensity hexColor target' factor co =
  (Normal 1.0, (co ++ [zeroLuminanceWarning hexColor])%list) /\
  1.0 == 1.
Proof.
  intros E Z. apply Qeq_bool_iff in Z.
  rewrite calculateEmissiveIntensity_eq, calculateArtisticIntensity_eq, E, Z,
    (hexToRgb_console _ _ _ _ E).
  repeat split.
Qed.

Lemma zero_luminance_fallback_witness :
  calculateEmissiveIntensity "#000000" (Some 1.05) [] =
  (Normal 1.0, [zeroLuminanceWarning "#000000"]) /\
  calculateArtisticIntensity "#000000" (Some 2.0) (Some 0.5) [] =
  (Normal 1.0, [zeroLuminanceWarning "#000000"]) /\
  1.0 == 1.
Proof.
  apply (zero_luminance_fallback "#000000" (Some 1.05) (Some 2.0) (Some 0.5)
                                 [] [] (decoded "000000")).
  - reflexivity.
  - reflexivity.
Defined.

(** ** Pure black is the only color of luminance 0 *)

Lemma hexValue_zero (c : ascii) :
  Builtin.isHexDigit c = true -> hexValue c = 0%Z -> c = "0"%char.
Proof.
  each_character c; vm_compute; intros H Z;
    first [ discriminate H | discriminate Z | reflexivity ].
Qed.

Lemma channel_zero (hi lo : ascii) :
  Builtin.isHexDigit hi = true -> Builtin.isHexDigit lo = true ->
  inject_Z (16 * hexValue hi + hexValue lo) / 255 == 0 ->
  hi = "0"%char /\ lo = "0"%char.
Proof.
  intros Hh Hl Z.
  destruct (digitValue_hex hi Hh) as [_ Rh], (digitValue_hex lo Hl) as [_ Rl].
  assert (E : inject_Z (16 * hexValue hi + hexValue lo) == 0).
  { setoid_replace (inject_Z (16 * hexValue hi + hexValue lo))
      with (inject_Z (16 * hexValue hi + hexValue lo) / 255 * 255) by (field; discriminate).
    rewrite Z. ring. }
  unfold Qeq, inject_Z in E. cbn [Qnum Qden] in E.
  split; apply hexValue_zero; try assumption; lia.
Qed.

Lemma zero_luminance_is_black (hexColor : string) (co co' : Console) (rgb : RGB) :
  hexToRgb hexColor co = (Normal rgb, co') ->
  calculateLuminance rgb == 0 ->
  Builtin.replace "#" "" hexColor = "000000".
Proof.
  intros E Z. pose proof (hexToRgb_normalized _ _ _ _ E) as N.
  apply (calculateLuminance_zero rgb N) in Z. destruct Z as (Zr & Zg & Zb).
  rewrite hexToRgb_eq in E. cbv zeta in E.
  set (cleanHex := Builtin.replace "#" "" hexColor) in *. clearbody cleanHex.
  destruct (Builtin.HEX6_test cleanHex) eqn:T; [ | discriminate E ].
  injection E as <- _.
  destruct (six_hex_characters _ T)
    as (c1 & c2 & c3 & c4 & c5 & c6 & -> & H1 & H2 & H3 & H4 & H5 & H6).
  unfold decoded, channel in Zr, Zg, Zb; cbn [r g b get] in Zr, Zg, Zb.
  destruct (channel_zero c1 c2 H1 H2 Zr) as [-> ->].
  destruct (channel_zero c3 c4 H3 H4 Zg) as [-> ->].
  destruct (channel_zero c5 c6 H5 H6 Zb) as [-> ->].
  reflexivity.
Qed.

(** ** The sign of the full-compensation intensity *)

(** C6, as stated: whatever the target, the returned intensity is at least
    0.  White with the target -1 returns -1. *)
Lemma calculateEmissiveIntensity_negative_target :
  ~ (forall hexColor targetLuminance co co' v,
       calculateEmissiveIntensity hexColor (Some targetLuminance) co = (Normal v, co') ->
       0 <= v).
Proof.
  intros claim.
  specialize (claim "#ffffff" (-1) [] []
                    (-1 / calculateLuminance (decoded "ffffff")) eq_refl).
  revert claim. vm_compute. intros H. now apply H.
Qed.

(** C6, amended.  [calculateEmissiveIntensity] enforces no range on the
    target: for a target at least 0 the returned intensity is at least 0
    (the fallback 1.0 included); for a negative target and a color that is
    not black it is negative. *)
Theorem calculateEmissiveIntensity_sign
    (hexColor : string) (targetLuminance : option number)
    (co co1 co' : Console) (rgb : RGB) (v : number) :
  hexToRgb hexColor co = (Normal rgb, co1) ->
  calculateEmissiveIntensity hexColor targetLuminance co = (Normal v, co') ->
  (0 <= default 1.05 targetLuminance -> 0 <= v) /\
  (default 1.05 targetLuminance < 0 -> ~ calculateLuminance rgb == 0 -> v < 0).
Proof.
  intros E R. rewrite calculateEmissiveIntensity_eq, E in R.
  pose proof (calculateLuminance_nonneg rgb (hexToRgb_normalized _ _ _ _ E)) as P.
  destruct (Qeq_bool (calculateLuminance rgb) 0) eqn:B.
  - injection R as <- _. split.
    + intros _. discriminate.
    + intros _ NZ. apply Qeq_bool_iff in B. now elim NZ.
  - injection R as <- _.
    assert (NZ : ~ calculateLuminance rgb == 0).
    { intros Z. apply Qeq_bool_iff in Z. congruence. }
    assert (LP : 0 < calculateLuminance rgb).
    { apply Qle_lteq in P. destruct P as [P | P]; [ exact P | ].
      symmetry in P. now elim NZ. }
    split.
    + intros T. apply Qle_shift_div_l; lra.
    + intros T _. apply Qlt_shift_div_r; lra.
Qed.

Lemma calculateEmissiveIntensity_sign_witness :
  (0 <= default 1.05 (Some 2) -> 0 <= 2 / calculateLuminance (decoded "ff00ff")) /\
  (default 1.05 (Some 2) < 0 -> ~ calculateLuminance (decoded "ff00ff") == 0 ->
   2 / calculateLuminance (decoded "ff00ff") < 0).
Proof.
  apply (calculateEmissiveIntensity_sign "#ff00ff" (Some 2) [] [] []
                                         (decoded "ff00ff")).
  - reflexivity.
  - reflexivity.
Defined.

(** ** The gap between two colors under partial compensation *)


(** ** Further properties of the decoder *)

Lemma replace_insert_hash (s1 s2 : string) :
  hashFree s1 = true ->
  Builtin.replace "#" "" (s1 ++ String "#" s2) = s1 ++ s2.
Proof.
  induction s1 as [| c s1 IH]; cbn [append].
  - intros _. apply replace_leading_hash.
  - unfold hashFree. cbn [list_ascii_of_string forallb]. intros H.
    apply andb_true_iff in H as [Hc Hs].
    rewrite replace_inner_hash.
    + now rewrite (IH Hs).
    + intros ->. discriminate Hc.
Qed.

Lemma hashFree_prefix (s1 s2 : string) :
  hashFree (s1 ++ s2) = true -> hashFree s1 = true.
Proof.
  unfold hashFree. induction s1 as [| c s1 IH]; cbn [append list_ascii_of_string forallb].
  - reflexivity.
  - intros H. apply andb_true_iff in H as [Hc Hs]. now rewrite Hc, (IH Hs).
Qed.

(** [replace] either finds no '#' and returns its argument, or removes the
    first one. *)
Lemma replace_hash_cases (hex : string) :
  (hashFree hex = true /\ Builtin.replace "#" "" hex = hex) \/
  (exists s1 s2,
     hex = s1 ++ String "#" s2 /\ hashFree s1 = true /\
     Builtin.replace "#" "" hex = s1 ++ s2).
Proof.
  induction hex as [| c s IH].
  - left. split; reflexivity.
  - destruct (Ascii.eqb_spec c "#") as [-> | ne].
    + right. exists "", s. repeat split. apply replace_leading_hash.
    + assert (Hc : negb (Ascii.eqb c "#") = true).
      { destruct (Ascii.eqb_spec c "#"); [ contradiction | reflexivity ]. }
      destruct IH as [[F E] | (s1 & s2 & E & F & R)].
      * left. split.
        -- unfold hashFree in *. cbn [list_ascii_of_string forallb]. now rewrite Hc.
        -- now rewrite replace_inner_hash, E.
      * right. exists (String c s1), s2. repeat split.
        -- cbn [append]. now rewrite E.
        -- unfold hashFree in *. cbn [list_ascii_of_string forallb]. now rewrite Hc.
        -- rewrite replace_inner_hash by exact ne. cbn [append]. now rewrite R.
Qed.

(** X1. The inputs [hexToRgb] accepts are the strings of six hexadecimal
    digits and those strings with one '#' put in at any position; the triple
    returned is the one of the six digits. *)
Theorem hexToRgb_accepted_inputs (hex : string) (co : Console) (rgb : RGB) :
  hexToRgb hex co = (Normal rgb, co) <->
  (SixHexDigits hex /\ rgb = decoded hex) \/
  (exists s1 s2,
     hex = s1 ++ String "#" s2 /\ SixHexDigits (s1 ++ s2) /\
     rgb = decoded (s1 ++ s2)).
Proof.
  rewrite hexToRgb_eq. cbv zeta. split.
  - destruct (Builtin.HEX6_test _) eqn:T; [ | discriminate ].
    intros E. injection E as <-. apply HEX6_test_spec in T.
    destruct (replace_hash_cases hex) as [[_ R] | (s1 & s2 & E & _ & R)];
      rewrite R in *.
    + left. now split.
    + right. exists s1, s2. split; [ exact E | split; [ exact T | reflexivity ] ].
  - intros [[S ->] | (s1 & s2 & -> & S & ->)].
    + rewrite (replace_no_hash hex (six_hex_no_hash hex S)).
      now rewrite (proj2 (HEX6_test_spec hex) S).
    + rewrite (replace_insert_hash s1 s2
                 (hashFree_prefix s1 s2 (six_hex_no_hash _ S))).
      now rewrite (proj2 (HEX6_test_spec _) S).
Qed.

Lemma hexToRgb_accepted_inputs_witness :
  hexToRgb "00ff#7f" [] = (Normal (decoded "00ff7f"), []).
Proof.
  apply (hexToRgb_accepted_inputs "00ff#7f" [] (decoded "00ff7f")).
  right. exists "00ff", "7f". repeat split.
  cbn [append list_ascii_of_string].
  repeat (apply Forall_cons; [ apply isHexDigit_HexDigit; reflexivity | ]).
  apply Forall_nil.
Defined.

Lemma asciiLower_hash (c : ascii) :
  Ascii.eqb (asciiLower c) "#" = Ascii.eqb c "#".
Proof. each_character c; reflexivity. Qed.

Lemma isHexDigit_lower (c : ascii) :
  Builtin.isHexDigit (asciiLower c) = Builtin.isHexDigit c.
Proof. each_character c; reflexivity. Qed.

Lemma hexValue_lower (c : ascii) : hexValue (asciiLower c) = hexValue c.
Proof. each_character c; reflexivity. Qed.

Lemma asciiLower_hex (c : ascii) :
  Builtin.isHexDigit c = true -> asciiLower c = lowerHexDigit (hexValue c).
Proof.
  each_character c; vm_compute; intros H; first [ discriminate H | reflexivity ].
Qed.

Lemma lowerCase_replace (s : string) :
  Builtin.replace "#" "" (lowerCase s) = lowerCase (Builtin.replace "#" "" s).
Proof.
  induction s as [| c s IH]; [ reflexivity | ].
  cbn [lowerCase]. pose proof (asciiLower_hash c) as L.
  destruct (Ascii.eqb_spec c "#") as [-> | ne].
  - change (asciiLower "#") with "#"%char. now rewrite !replace_leading_hash.
  - destruct (Ascii.eqb_spec (asciiLower c) "#") as [e | ne']; [ discriminate L | ].
    rewrite !replace_inner_hash by assumption. cbn [lowerCase]. now rewrite IH.
Qed.

Lemma matchRepeat_lower (n : nat) (s : string) :
  Builtin.matchRepeat Builtin.isHexDigit n (lowerCase s) =
  Builtin.matchRepeat Builtin.isHexDigit n s.
Proof.
  revert s; induction n as [| n IH]; intros [| c s]; cbn [lowerCase Builtin.matchRepeat];
    try reflexivity.
  now rewrite isHexDigit_lower, IH.
Qed.

Lemma get_lower (i : nat) (s : string) :
  get i (lowerCase s) = option_map asciiLower (get i s).
Proof.
  revert i; induction s as [| c s IH]; intros [| i]; cbn [lowerCase get option_map];
    try reflexivity.
  apply IH.
Qed.

Lemma decoded_lower (s : string) : decoded (lowerCase s) = decoded s.
Proof.
  unfold decoded, channel. rewrite !get_lower.
  repeat match goal with
         | |- context [get ?i s] => destruct (get i s); cbn [option_map]
         end;
    now rewrite ?hexValue_lower.
Qed.

(** X2. [hexToRgb] does not look at letter case: an input that differs from
    an accepted one only in the case of its letters is accepted with the
    same triple. *)
Theorem hexToRgb_case_insensitive (hex hex' : string) (co : Console) (rgb : RGB) :
  lowerCase hex' = lowerCase hex ->
  hexToRgb hex co = (Normal rgb, co) ->
  hexToRgb hex' co = (Normal rgb, co).
Proof.
  intros C. rewrite !hexToRgb_eq. cbv zeta. unfold Builtin.HEX6_test.
  rewrite <- (matchRepeat_lower 6 (Builtin.replace "#" "" hex')),
    <- (matchRepeat_lower 6 (Builtin.replace "#" "" hex)),
    <- (decoded_lower (Builtin.replace "#" "" hex')),
    <- (decoded_lower (Builtin.replace "#" "" hex)),
    <- !lowerCase_replace, C.
  destruct (Builtin.matchRepeat _ _ _); [ trivial | discriminate ].
Qed.

Lemma hexToRgb_case_insensitive_witness :
  hexToRgb "#FFAA0C" [] = (Normal (decoded "ffaa0c"), []).
Proof.
  apply (hexToRgb_case_insensitive "#ffaa0c" "#FFAA0C" [] (decoded "ffaa0c"));
    reflexivity.
Defined.

Lemma decoded_eight_bit (cleanHex : string) :
  Builtin.HEX6_test cleanHex = true ->
  exists kr kg kb : Z,
    (0 <= kr <= 255)%Z /\ (0 <= kg <= 255)%Z /\ (0 <= kb <= 255)%Z /\
    decoded cleanHex =
    {| r := inject_Z kr / 255; g := inject_Z kg / 255; b := inject_Z kb / 255 |}.
Proof.
  intros T.
  destruct (six_hex_characters _ T)
    as (c1 & c2 & c3 & c4 & c5 & c6 & -> & H1 & H2 & H3 & H4 & H5 & H6).
  exists (16 * hexValue c1 + hexValue c2)%Z, (16 * hexValue c3 + hexValue c4)%Z,
    (16 * hexValue c5 + hexValue c6)%Z.
  repeat split;
    first [ apply (parseInt_two_hex c1 c2 H1 H2)
          | apply (parseInt_two_hex c3 c4 H3 H4)
          | apply (parseInt_two_hex c5 c6 H5 H6) ].
Qed.

(** X3. Every component [hexToRgb] returns is an 8-bit channel over 255:
    k/255 for an integer k from 0 to 255. *)
Theorem hexToRgb_eight_bit (hex : string) (co co' : Console) (rgb : RGB) :
  hexToRgb hex co = (Normal rgb, co') ->
  exists kr kg kb : Z,
    (0 <= kr <= 255)%Z /\ (0 <= kg <= 255)%Z /\ (0 <= kb <= 255)%Z /\
    rgb = {| r := inject_Z kr / 255; g := inject_Z kg / 255; b := inject_Z kb / 255 |}.
Proof.
  rewrite hexToRgb_eq. cbv zeta.
  destruct (Builtin.HEX6_test _) eqn:T; [ | discriminate ].
  intros E. injection E as <- _. now apply decoded_eight_bit.
Qed.

Lemma hexToRgb_eight_bit_witness :
  exists kr kg kb : Z,
    (0 <= kr <= 255)%Z /\ (0 <= kg <= 255)%Z /\ (0 <= kb <= 255)%Z /\
    decoded "808080" =
    {| r := inject_Z kr / 255; g := inject_Z kg / 255; b := inject_Z kb / 255 |}.
Proof.
  apply (hexToRgb_eight_bit "#808080" [] [] (decoded "808080")). reflexivity.
Defined.

Lemma channel_digits_equal (c1 c2 d1 d2 : ascii) :
  Builtin.isHexDigit c1 = true -> Builtin.isHexDigit c2 = true ->
  Builtin.isHexDigit d1 = true -> Builtin.isHexDigit d2 = true ->
  inject_Z (16 * hexValue c1 + hexValue c2) / 255 ==
  inject_Z (16 * hexValue d1 + hexValue d2) / 255 ->
  asciiLower c1 = asciiLower d1 /\ asciiLower c2 = asciiLower d2.
Proof.
  intros C1 C2 D1 D2 E.
  destruct (digitValue_hex c1 C1) as [_ ?], (digitValue_hex c2 C2) as [_ ?],
    (digitValue_hex d1 D1) as [_ ?], (digitValue_hex d2 D2) as [_ ?].
  rewrite (asciiLower_hex c1 C1), (asciiLower_hex c2 C2),
    (asciiLower_hex d1 D1), (asciiLower_hex d2 D2).
  unfold Qeq, Qdiv, Qmult, Qinv, inject_Z in E. cbn [Qnum Qden] in E.
  assert (hexValue c1 = hexValue d1 /\ hexValue c2 = hexValue d2) as [-> ->] by lia.
  split; reflexivity.
Qed.

(** X4. Decoding loses nothing but letter case: two accepted inputs with
    equal triples have, once the '#' is removed, the same six digits up to
    case. *)
Theorem hexToRgb_injective
    (hex1 hex2 : string) (co : Console) (rgb1 rgb2 : RGB) :
  hexToRgb hex1 co = (Normal rgb1, co) ->
  hexToRgb hex2 co = (Normal rgb2, co) ->
  r rgb1 == r rgb2 -> g rgb1 == g rgb2 -> b rgb1 == b rgb2 ->
  lowerCase (Builtin.replace "#" "" hex1) = lowerCase (Builtin.replace "#" "" hex2).
Proof.
  rewrite !hexToRgb_eq. cbv zeta.
  set (s1 := Builtin.replace "#" "" hex1). set (s2 := Builtin.replace "#" "" hex2).
  clearbody s1 s2.
  destruct (Builtin.HEX6_test s1) eqn:T1; [ | discriminate ].
  destruct (Builtin.HEX6_test s2) eqn:T2; [ | discriminate ].
  intros E1 E2. injection E1 as <-. injection E2 as <-.
  destruct (six_hex_characters _ T1)
    as (c1 & c2 & c3 & c4 & c5 & c6 & -> & C1 & C2 & C3 & C4 & C5 & C6).
  destruct (six_hex_characters _ T2)
    as (d1 & d2 & d3 & d4 & d5 & d6 & -> & D1 & D2 & D3 & D4 & D5 & D6).
  unfold decoded, channel; cbn [r g b get]. intros R G B.
  destruct (channel_digits_equal _ _ _ _ C1 C2 D1 D2 R) as [e1 e2].
  destruct (channel_digits_equal _ _ _ _ C3 C4 D3 D4 G) as [e3 e4].
  destruct (channel_digits_equal _ _ _ _ C5 C6 D5 D6 B) as [e5 e6].
  cbn [lowerCase]. now rewrite e1, e2, e3, e4, e5, e6.
Qed.

Lemma hexToRgb_injective_witness :
  lowerCase (Builtin.replace "#" "" "#FF00aa") =
  lowerCase (Builtin.replace "#" "" "ff00AA").
Proof.
  apply (hexToRgb_injective "#FF00aa" "ff00AA" [] (decoded "FF00aa") (decoded "ff00AA"));
    reflexivity.
Defined.

(** ** Further properties of the luminance and of the compensators *)







(** X8. An input [hexToRgb] rejects makes both intensity functions throw
    the error of [hexToRgb], whose message names the input, before anything
    is written to the console. *)
Theorem invalid_color_propagates
    (hexColor : string) (target target' factor : option number)
    (co co' : Console) (e : Error) :
  hexToRgb hexColor co = (Throw e, co') ->
  calculateEmissiveIntensity hexColor target co = (Throw e, co) /\
  calculateArtisticIntensity hexColor target' factor co = (Throw e, co) /\
  message e = invalidHexMessage hexColor.
Proof.
  intros E.
  rewrite calculateEmissiveIntensity_eq, calculateArtisticIntensity_eq, E,
    (hexToRgb_console _ _ _ _ E).
  repeat split. exact (hexToRgb_error_names_input _ _ _ _ E).
Qed.

Lemma invalid_color_propagates_witness :
  calculateEmissiveIntensity "#gggggg" None [] =
  (Throw (mkError (invalidHexMessage "#gggggg")), []) /\
  calculateArtisticIntensity "#gggggg" None None [] =
  (Throw (mkError (invalidHexMessage "#gggggg")), []) /\
  message (mkError (invalidHexMessage "#gggggg")) = invalidHexMessage "#gggggg".
Proof.
  apply (invalid_color_propagates "#gggggg" None None None [] []). reflexivity.
Defined.

(** X9. The only console output of the two intensity functions is the
    zero-luminance warning: one line, naming the input as passed, exactly
    when the six digits are 000000; the console is left as it was in every
    other case, also when the call throws. *)
Theorem warning_only_for_black
    (hexColor : string) (target target' factor : option number) (co : Console) :
  let after :=
    if String.eqb (Builtin.replace "#" "" hexColor) "000000"
    then (co ++ [zeroLuminanceWarning hexColor])%list
    else co in
  snd (calculateEmissiveIntensity hexColor target co) = after /\
  snd (calculateArtisticIntensity hexColor target' factor co) = after.
Proof.
  cbv zeta. rewrite calculateEmissiveIntensity_eq, calculateArtisticIntensity_eq.
  destruct (String.eqb_spec (Builtin.replace "#" "" hexColor) "000000") as [B | NB].
  - rewrite hexToRgb_eq. cbv zeta. rewrite B. split; reflexivity.
  - destruct (hexToRgb hexColor co) as [[rgb | e] co'] eqn:E.
    + pose proof (hexToRgb_console _ _ _ _ E) as ->.
      destruct (Qeq_bool (calculateLuminance rgb) 0) eqn:Z.
      * apply Qeq_bool_iff in Z. elim NB.
        exact (zero_luminance_is_black _ _ _ _ E Z).
      * split; reflexivity.
    + pose proof (hexToRgb_console _ _ _ _ E) as ->. split; reflexivity.
Qed.



(** X15. A leading '#' makes no difference to what the three functions on
    hex strings return: on six hexadecimal digits [s], with and without it,
    [getColorLuminance] behaves the same and each intensity function gives
    the same intensity (for black the warning written names the input as it
    was passed). *)
Theorem leading_hash_is_optional
    (s : string) (target target' factor : option number) (co : Console) :
  SixHexDigits s ->
  getColorLuminance (String "#" s) co = getColorLuminance s co /\
  fst (calculateEmissiveIntensity (String "#" s) target co) =
  fst (calculateEmissiveIntensity s target co) /\
  fst (calculateArtisticIntensity (String "#" s) target' factor co) =
  fst (calculateArtisticIntensity s target' factor co).
Proof.
  intros S. destruct (hexToRgb_of_six_hex s co S) as (E1 & E2 & _).
  rewrite !calculateEmissiveIntensity_eq, !calculateArtisticIntensity_eq.
  unfold getColorLuminance, bind. rewrite E1, E2.
  destruct (Qeq_bool (calculateLuminance (decoded s)) 0); repeat split.
Qed.

Lemma leading_hash_is_optional_witness :
  getColorLuminance "#00ff00" [] = getColorLuminance "00ff00" [] /\
  fst (calculateEmissiveIntensity "#00ff00" None []) =
  fst (calculateEmissiveIntensity "00ff00" None []) /\
  fst (calculateArtisticIntensity "#00ff00" None None []) =
  fst (calculateArtisticIntensity "00ff00" None None []).
Proof.
  apply (leading_hash_is_optional "00ff00" None None None []).
  split; [ reflexivity | ].
  cbn [list_ascii_of_string].
  repeat (apply Forall_cons; [ apply isHexDigit_HexDigit; reflexivity | ]).
  apply Forall_nil.
Defined.

(** ** Double precision: the arithmetic of the code

    What follows is about [Binary64], the module with JavaScript's numbers.
    Facts that hold for every double come from the specification of the
    primitive operations; facts about the colors [hexToRgb] can return are
    checked on all 256^3 of them. *)

(** *** Facts about all doubles *)

(** [<] on doubles is transitive. *)
Lemma SFltb_trans (x y z : spec_float) :
  SFltb x y = true -> SFltb y z = true -> SFltb x z = true.
Proof.
  unfold SFltb.
  destruct x as [sx | sx | | sx mx ex], y as [sy | sy | | sy my ey],
    z as [sz | sz | | sz mz ez]; cbn [SFcompare];
    try discriminate; try reflexivity;
    repeat match goal with s : bool |- _ => destruct s end;
    try discriminate; try reflexivity.
  all: destruct (Z.compare_spec ex ey), (Z.compare_spec ey ez), (Z.compare_spec ex ez);
    try discriminate; try reflexivity; try lia.
  all: rewrite ?Pos.compare_cont_spec; cbn [Pos.switch_Eq];
    destruct (Pos.compare_spec mx my), (Pos.compare_spec my mz), (Pos.compare_spec mx mz);
    cbn [CompOpp]; try discriminate; try reflexivity; try lia.
Qed.

Lemma float_ltb_trans (x y z : float) :
  (x <? y)%float = true -> (y <? z)%float = true -> (x <? z)%float = true.
Proof. rewrite !FloatAxioms.ltb_spec. apply SFltb_trans. Qed.





(** *** The checks over all colors *)

Lemma tables_weighted :
  Binary64.redTable = Binary64.weighted (Binary64.red Binary64.REC709_COEFFICIENTS) /\
  Binary64.greenTable = Binary64.weighted (Binary64.green Binary64.REC709_COEFFICIENTS) /\
  Binary64.blueTable = Binary64.weighted (Binary64.blue Binary64.REC709_COEFFICIENTS).
Proof. split; [ | split ]; vm_compute; reflexivity. Qed.

(** Over all 256^3 colors: the luminance is in [0,1] and is 0 only for
    black. *)
Lemma luminanceChecked_true :
  forallb (fun pr =>
    forallb (fun pg =>
      forallb (fun pb =>
        Binary64.luminanceOk (fst pr) (fst pg) (fst pb) (snd pr + snd pg + snd pb)%float)
        Binary64.blueTable) Binary64.greenTable) Binary64.redTable = true.
Proof. vm_compute. reflexivity. Qed.

(** Over all colors: one level more of one channel, more luminance. *)
Lemma redMonotoneChecked_true :
  forallb (fun pg => forallb (fun pb =>
    Binary64.increasing (map (fun pr => (snd pr + snd pg + snd pb)%float) Binary64.redTable))
    Binary64.blueTable) Binary64.greenTable = true.
Proof. vm_compute. reflexivity. Qed.

Lemma greenMonotoneChecked_true :
  forallb (fun pr => forallb (fun pb =>
    Binary64.increasing (map (fun pg => (snd pr + snd pg + snd pb)%float) Binary64.greenTable))
    Binary64.blueTable) Binary64.redTable = true.
Proof. vm_compute. reflexivity. Qed.

Lemma blueMonotoneChecked_true :
  forallb (fun pr => forallb (fun pg =>
    Binary64.increasing (map (fun pb => (snd pr + snd pg + snd pb)%float) Binary64.blueTable))
    Binary64.greenTable) Binary64.redTable = true.
Proof. vm_compute. reflexivity. Qed.

Lemma forallb2_in {A B} (P : A -> B -> bool) (la : list A) (lb : list B) :
  forallb (fun a => forallb (fun b => P a b) lb) la = true ->
  forall a b, In a la -> In b lb -> P a b = true.
Proof.
  intros H a b Ia Ib. rewrite forallb_forall in H.
  specialize (H a Ia). rewrite forallb_forall in H. exact (H b Ib).
Qed.

Lemma forallb3_in {A B C} (P : A -> B -> C -> bool)
    (la : list A) (lb : list B) (lc : list C) :
  forallb (fun a => forallb (fun b => forallb (fun c => P a b c) lc) lb) la = true ->
  forall a b c, In a la -> In b lb -> In c lc -> P a b c = true.
Proof.
  intros H a b c Ia Ib Ic.
  pose proof (forallb2_in _ _ _ H a b Ia Ib) as H'.
  rewrite forallb_forall in H'. exact (H' c Ic).
Qed.

Lemma levels_range (k : Z) : (0 <= k <= 255)%Z -> In k Binary64.levels.
Proof.
  intros R. unfold Binary64.levels. apply in_map_iff. exists (Z.to_nat k). split.
  - lia.
  - apply in_seq. lia.
Qed.

Lemma weighted_range (c : Binary64.number) (k : Z) :
  (0 <= k <= 255)%Z -> In (k, (c * Binary64.channel8 k)%float) (Binary64.weighted c).
Proof.
  intros R. unfold Binary64.weighted. apply in_map_iff. exists k. split; [ reflexivity | ].
  now apply levels_range.
Qed.

Lemma luminance_8bit_checked (kr kg kb : Z) :
  (0 <= kr <= 255)%Z -> (0 <= kg <= 255)%Z -> (0 <= kb <= 255)%Z ->
  Binary64.luminanceOk kr kg kb (Binary64.calculateLuminance (Binary64.rgb8 kr kg kb)) = true.
Proof.
  intros Rr Rg Rb. destruct tables_weighted as (TR & TG & TB).
  apply (forallb3_in
           (fun pr pg pb =>
              Binary64.luminanceOk (fst pr) (fst pg) (fst pb) (snd pr + snd pg + snd pb)%float)
           Binary64.redTable Binary64.greenTable Binary64.blueTable luminanceChecked_true
           (kr, _) (kg, _) (kb, _)).
  - rewrite TR. now apply weighted_range.
  - rewrite TG. now apply weighted_range.
  - rewrite TB. now apply weighted_range.
Qed.

Lemma increasing_adjacent (l : list float) (d : float) (i : nat) :
  Binary64.increasing l = true -> (S i < List.length l)%nat ->
  (nth i l d <? nth (S i) l d)%float = true.
Proof.
  revert i. induction l as [| x [| y t] IH]; intros i H L; cbn [List.length] in L; try lia.
  cbn [Binary64.increasing] in H. apply andb_true_iff in H as [Hxy Ht].
  destruct i as [| i]; [ exact Hxy | ].
  apply (IH i Ht). cbn [List.length] in *. lia.
Qed.

Lemma increasing_nth (l : list float) (d : float) (i j : nat) :
  Binary64.increasing l = true -> (i < j)%nat -> (j < List.length l)%nat ->
  (nth i l d <? nth j l d)%float = true.
Proof.
  intros H. induction j as [| j IH]; intros IJ JL; [ lia | ].
  destruct (Nat.eq_dec i j) as [-> | ne].
  - now apply increasing_adjacent.
  - apply (float_ltb_trans _ (nth j l d)).
    + apply IH; lia.
    + now apply increasing_adjacent.
Qed.

Lemma weighted_nth (c : Binary64.number) (k : Z) (f : Z * float -> float) :
  (0 <= k <= 255)%Z ->
  nth (Z.to_nat k) (map f (Binary64.weighted c)) 0%float =
  f (k, (c * Binary64.channel8 k)%float).
Proof.
  intros R. unfold Binary64.weighted, Binary64.levels. rewrite !map_map.
  rewrite (nth_indep _ 0%float
             (f (Z.of_nat 0, (c * Binary64.channel8 (Z.of_nat 0))%float)))
    by (rewrite length_map, length_seq; lia).
  rewrite (map_nth (fun x => f (Z.of_nat x, (c * Binary64.channel8 (Z.of_nat x))%float))).
  rewrite seq_nth by lia. cbn [Nat.add]. now rewrite Z2Nat.id by lia.
Qed.

Lemma weighted_length (c : Binary64.number) (f : Z * float -> float) :
  List.length (map f (Binary64.weighted c)) = 256%nat.
Proof. unfold Binary64.weighted, Binary64.levels. now rewrite !length_map, length_seq. Qed.

Lemma luminance_8bit_monotone (kr kg kb k' : Z) :
  (0 <= kr <= 255)%Z -> (0 <= kg <= 255)%Z -> (0 <= kb <= 255)%Z ->
  (0 <= k' <= 255)%Z ->
  ((kr < k')%Z ->
   (Binary64.calculateLuminance (Binary64.rgb8 kr kg kb)
    <? Binary64.calculateLuminance (Binary64.rgb8 k' kg kb))%float = true) /\
  ((kg < k')%Z ->
   (Binary64.calculateLuminance (Binary64.rgb8 kr kg kb)
    <? Binary64.calculateLuminance (Binary64.rgb8 kr k' kb))%float = true) /\
  ((kb < k')%Z ->
   (Binary64.calculateLuminance (Binary64.rgb8 kr kg kb)
    <? Binary64.calculateLuminance (Binary64.rgb8 kr kg k'))%float = true).
Proof.
  intros Rr Rg Rb R'.
  destruct tables_weighted as (TR & TG & TB).
  pose proof redMonotoneChecked_true as Cr.
  pose proof greenMonotoneChecked_true as Cg.
  pose proof blueMonotoneChecked_true as Cb.
  pose proof (weighted_range (Binary64.red Binary64.REC709_COEFFICIENTS) kr Rr) as Ir.
  pose proof (weighted_range (Binary64.green Binary64.REC709_COEFFICIENTS) kg Rg) as Ig.
  pose proof (weighted_range (Binary64.blue Binary64.REC709_COEFFICIENTS) kb Rb) as Ib.
  rewrite <- TR in Ir. rewrite <- TG in Ig. rewrite <- TB in Ib.
  split; [ | split ]; intros LT.
  - pose proof (forallb2_in _ _ _ Cr _ _ Ig Ib) as H. cbn [snd] in H.
    rewrite TR in H.
    pose proof (increasing_nth _ 0%float (Z.to_nat kr) (Z.to_nat k') H) as N.
    rewrite weighted_length in N.
    rewrite (weighted_nth _ kr _ Rr), (weighted_nth _ k' _ R') in N.
    apply N; lia.
  - pose proof (forallb2_in _ _ _ Cg _ _ Ir Ib) as H. cbn [snd] in H.
    rewrite TG in H.
    pose proof (increasing_nth _ 0%float (Z.to_nat kg) (Z.to_nat k') H) as N.
    rewrite weighted_length in N.
    rewrite (weighted_nth _ kg _ Rg), (weighted_nth _ k' _ R') in N.
    apply N; lia.
  - pose proof (forallb2_in _ _ _ Cb _ _ Ir Ig) as H. cbn [snd] in H.
    rewrite TB in H.
    pose proof (increasing_nth _ 0%float (Z.to_nat kb) (Z.to_nat k') H) as N.
    rewrite weighted_length in N.
    rewrite (weighted_nth _ kb _ Rb), (weighted_nth _ k' _ R') in N.
    apply N; lia.
Qed.

(** *** The decoder and the compensators in double precision *)

Lemma byteAt_range (cleanHex : string) (i : nat) :
  Builtin.HEX6_test cleanHex = true -> In i [0; 2; 4]%nat ->
  (0 <= Binary64.byteAt cleanHex i <= 255)%Z.
Proof.
  intros T Hi.
  destruct (six_hex_characters _ T)
    as (c1 & c2 & c3 & c4 & c5 & c6 & -> & H1 & H2 & H3 & H4 & H5 & H6).
  destruct Hi as [<- | [<- | [<- | []]]]; unfold Binary64.byteAt; cbn [get];
    first [ apply (parseInt_two_hex c1 c2 H1 H2)
          | apply (parseInt_two_hex c3 c4 H3 H4)
          | apply (parseInt_two_hex c5 c6 H5 H6) ].
Qed.

Lemma double_hexToRgb_eq (hex : string) (co : Console) :
  Binary64.hexToRgb hex co =
  let cleanHex := Builtin.replace "#" "" hex in
  if Builtin.HEX6_test cleanHex
  then (Normal (Binary64.decoded cleanHex), co)
  else (Throw (mkError (invalidHexMessage hex)), co).
Proof.
  unfold Binary64.hexToRgb. cbv zeta.
  destruct (Builtin.HEX6_test (Builtin.replace "#" "" hex)) eqn:T;
    cbn [negb]; [ | reflexivity ].
  destruct (six_hex_characters _ T)
    as (c1 & c2 & c3 & c4 & c5 & c6 & -> & H1 & H2 & H3 & H4 & H5 & H6).
  unfold ret, Binary64.decoded, Binary64.rgb8, Binary64.channel8, Binary64.byteAt.
  cbn [Builtin.substring String.length Nat.min Nat.max Nat.sub String.substring get].
  destruct (parseInt_two_hex c1 c2 H1 H2) as [-> _].
  destruct (parseInt_two_hex c3 c4 H3 H4) as [-> _].
  destruct (parseInt_two_hex c5 c6 H5 H6) as [-> _].
  reflexivity.
Qed.

Lemma double_hexToRgb_eight_bit (hex : string) (co co' : Console) (rgb : Binary64.RGB) :
  Binary64.hexToRgb hex co = (Normal rgb, co') ->
  co' = co /\
  exists kr kg kb : Z,
    (0 <= kr <= 255)%Z /\ (0 <= kg <= 255)%Z /\ (0 <= kb <= 255)%Z /\
    rgb = Binary64.rgb8 kr kg kb.
Proof.
  rewrite double_hexToRgb_eq. cbv zeta.
  destruct (Builtin.HEX6_test _) eqn:T; [ | discriminate ].
  intros E. injection E as <- <-. split; [ reflexivity | ].
  exists (Binary64.byteAt (Builtin.replace "#" "" hex) 0),
    (Binary64.byteAt (Builtin.replace "#" "" hex) 2),
    (Binary64.byteAt (Builtin.replace "#" "" hex) 4).
  repeat split; try (apply byteAt_range; [ exact T | cbn; tauto ]).
Qed.



(** *** The luminance evaluator *)

(** C7, as stated: on every triple with each component in [0,1] the luminance
    is 0 only for black.  In double precision the triple (2^-1074, 0, 0) is
    not black and its luminance underflows to 0. *)
Lemma double_luminance_underflows :
  ~ (forall rgb : Binary64.RGB,
       (0 <=? Binary64.r rgb)%float = true -> (Binary64.r rgb <=? 1)%float = true ->
       (0 <=? Binary64.g rgb)%float = true -> (Binary64.g rgb <=? 1)%float = true ->
       (0 <=? Binary64.b rgb)%float = true -> (Binary64.b rgb <=? 1)%float = true ->
       (Binary64.calculateLuminance rgb =? 0)%float = true ->
       (Binary64.r rgb =? 0)%float = true /\ (Binary64.g rgb =? 0)%float = true
       /\ (Binary64.b rgb =? 0)%float = true).
Proof.
  intros claim.
  destruct (claim {| Binary64.r := 0x1p-1074%float; Binary64.g := 0%float;
                     Binary64.b := 0%float |}) as [R _]; try reflexivity.
  revert R. vm_compute. discriminate.
Qed.

(** C7, amended.  [calculateLuminance] returns the double
    0.2126 * r + 0.7152 * g + 0.0722 * b (a total function: it has no failing
    case); on every triple of 8-bit channels k/255, which are the triples
    [hexToRgb] returns, the result is in [0,1] and is 0 only for black. *)
Theorem double_luminance_rec709 :
  (forall rgb : Binary64.RGB,
     Binary64.calculateLuminance rgb =
     (0.2126 * Binary64.r rgb + 0.7152 * Binary64.g rgb + 0.0722 * Binary64.b rgb)%float) /\
  (forall kr kg kb : Z,
     (0 <= kr <= 255)%Z -> (0 <= kg <= 255)%Z -> (0 <= kb <= 255)%Z ->
     let l := Binary64.calculateLuminance (Binary64.rgb8 kr kg kb) in
     (0 <=? l)%float = true /\ (l <=? 1)%float = true /\
     ((l =? 0)%float = true <-> kr = 0%Z /\ kg = 0%Z /\ kb = 0%Z)) /\
  (forall hex co co' rgb,
     Binary64.hexToRgb hex co = (Normal rgb, co') ->
     exists kr kg kb : Z,
       (0 <= kr <= 255)%Z /\ (0 <= kg <= 255)%Z /\ (0 <= kb <= 255)%Z /\
       rgb = Binary64.rgb8 kr kg kb).
Proof.
  split; [ reflexivity | split ].
  - intros kr kg kb Rr Rg Rb l.
    pose proof (luminance_8bit_checked kr kg kb Rr Rg Rb) as C.
    fold l in C. unfold Binary64.luminanceOk in C.
    apply andb_true_iff in C as [C Z]. apply andb_true_iff in C as [C0 C1].
    apply Bool.eqb_prop in Z. rewrite Z.
    split; [ exact C0 | split; [ exact C1 | ] ].
    rewrite !andb_true_iff, !Z.eqb_eq. tauto.
  - intros hex co co' rgb E. exact (proj2 (double_hexToRgb_eight_bit _ _ _ _ E)).
Qed.

Lemma double_luminance_rec709_witness :
  let l := Binary64.calculateLuminance (Binary64.rgb8 0 0 1) in
  (0 <=? l)%float = true /\ (l <=? 1)%float = true /\
  ((l =? 0)%float = true <-> 0%Z = 0%Z /\ 0%Z = 0%Z /\ 1%Z = 0%Z).
Proof.
  apply (proj1 (proj2 double_luminance_rec709) 0%Z 0%Z 1%Z); lia.
Defined.

(** C10, as stated: raising one component strictly raises the luminance.
    In double precision going from (1, 1, 0) to (1, 1, 1e-17) leaves it at
    0.9278: the increase is lost in rounding. *)
Lemma double_luminance_absorbs_small_increase :
  ~ (forall (rgb : Binary64.RGB) (x : Binary64.number),
       (Binary64.b rgb <? x)%float = true ->
       (Binary64.calculateLuminance rgb
        <? Binary64.calculateLuminance
             {| Binary64.r := Binary64.r rgb; Binary64.g := Binary64.g rgb;
                Binary64.b := x |})%float = true).
Proof.
  intros claim.
  specialize (claim {| Binary64.r := 1%float; Binary64.g := 1%float;
                       Binary64.b := 0%float |} 1e-17%float eq_refl).
  revert claim. vm_compute. discriminate.
Qed.

(** C10, amended.  On triples of 8-bit channels k/255, which are the triples
    [hexToRgb] returns, [calculateLuminance] is strictly monotone in each
    channel: raising one channel to a higher level and keeping the other two
    strictly raises the luminance, the three Rec. 709 coefficients being
    strictly positive. *)
Theorem double_luminance_strictly_monotone (kr kg kb k' : Z) :
  (0 <= kr <= 255)%Z -> (0 <= kg <= 255)%Z -> (0 <= kb <= 255)%Z ->
  (0 <= k' <= 255)%Z ->
  ((0 <? Binary64.red Binary64.REC709_COEFFICIENTS)%float = true /\
   (0 <? Binary64.green Binary64.REC709_COEFFICIENTS)%float = true /\
   (0 <? Binary64.blue Binary64.REC709_COEFFICIENTS)%float = true) /\
  ((kr < k')%Z ->
   (Binary64.calculateLuminance (Binary64.rgb8 kr kg kb)
    <? Binary64.calculateLuminance (Binary64.rgb8 k' kg kb))%float = true) /\
  ((kg < k')%Z ->
   (Binary64.calculateLuminance (Binary64.rgb8 kr kg kb)
    <? Binary64.calculateLuminance (Binary64.rgb8 kr k' kb))%float = true) /\
  ((kb < k')%Z ->
   (Binary64.calculateLuminance (Binary64.rgb8 kr kg kb)
    <? Binary64.calculateLuminance (Binary64.rgb8 kr kg k'))%float = true).
Proof.
  intros Rr Rg Rb R'. split.
  - split; [ | split ]; reflexivity.
  - now apply luminance_8bit_monotone.
Qed.

Lemma double_luminance_strictly_monotone_witness :
  (Binary64.calculateLuminance (Binary64.rgb8 255 255 0)
   <? Binary64.calculateLuminance (Binary64.rgb8 255 255 1))%float = true.
Proof.
  apply (double_luminance_strictly_monotone 255 255 0 1); lia.
Defined.



(** *** Partial compensation *)


(** And the factor 0 does not give 1.0 when the full compensation
    overflows: the product of an infinity and 0 is NaN. *)
Lemma double_artistic_factor_zero_nan :
  Binary64.calculateArtisticIntensity "#000001" (Some 1e308%float) (Some 0%float) []
  = (Normal PrimFloat.nan, []).
Proof. vm_compute. reflexivity. Qed.



(** *** The gap between two colors *)



